(** * app.js: the request pipeline of the B2B escrow platform

    A shallow embedding of [src/app.js]: the Express application that wires
    the session, passport and flash middleware, the "global variables"
    middleware, the home and dashboard routes, the [ensureAuthenticated]
    guard, the catch-all 404 handler and the start-up configuration.

    The request and response objects of one HTTP exchange are mutable
    JavaScript objects; they are modelled by one record that every
    middleware transforms.  A middleware either calls [next()], ends the
    response, or raises. *)

From Stdlib Require Import ZArith.
From stdpp Require Import gmap strings list fin_maps.

Open Scope Z_scope.
Open Scope string_scope.
Open Scope list_scope.

(** ** JavaScript values *)

Module Js.

(** The values that flow through app.js: [req.user] (undefined, or the
    user document that passport deserialised), the arrays of strings
    that [req.flash] returns, the literals of the render contexts and the
    errors that a [catch] binds. *)
Inductive value : Type :=
| undefined
| null
| boolean (b : bool)
| number (n : Z)
| str (s : string)
| strings (l : list string)
| document (fields : list (string * string))
| error (message : string).

(** ToBoolean: undefined, null, false, 0 and the empty string are falsy;
    arrays and objects are truthy. *)
Definition truthy (v : value) : bool :=
  match v with
  | undefined | null => false
  | boolean b => b
  | number n => negb (Z.eqb n 0)
  | str s => negb (String.eqb s "")
  | strings _ | document _ | error _ => true
  end.

(** [a || b] *)
Definition or (a b : value) : value := if truthy a then a else b.

(** [a === b] on strings, as used for [process.env.NODE_ENV]. *)
Definition strict_eq_str (a : value) (s : string) : bool :=
  match a with
  | str a' => String.eqb a' s
  | _ => false
  end.

End Js.

Declare Scope js_scope.
Delimit Scope js_scope with js.
Notation "a '||' b" := (Js.or a b) (at level 50, left associativity) : js_scope.

(** ** One HTTP exchange *)

(** What [res] was asked to send: a redirect ([res.redirect]) or a rendered
    view ([res.render]) together with the context handed to the view. *)
Inductive Body : Type :=
| Redirect (location : string)
| Rendered (view : string) (context : gmap string Js.value).

(** The request and response objects of one exchange, with the parts of the
    process that app.js touches.  [session_flash] is the notification
    queue kept in the session, one list of messages per category. *)
Record Exchange : Type := mkExchange {
  method : string;                              (* req.method *)
  path : string;                                (* req.path *)
  user : Js.value;                              (* req.user *)
  session_flash : gmap string (list string);    (* req.session.flash *)
  locals : gmap string Js.value;                (* res.locals *)
  statusCode : Z;                               (* res.statusCode *)
  sent : option Body;                           (* the response, once ended *)
  console : list Js.value                       (* console.error output *)
}.

Definition set_session_flash (f : gmap string (list string)) (x : Exchange) : Exchange :=
  mkExchange (method x) (path x) (user x) f (locals x) (statusCode x) (sent x) (console x).

Definition set_locals (l : gmap string Js.value) (x : Exchange) : Exchange :=
  mkExchange (method x) (path x) (user x) (session_flash x) l (statusCode x) (sent x) (console x).

Definition set_statusCode (c : Z) (x : Exchange) : Exchange :=
  mkExchange (method x) (path x) (user x) (session_flash x) (locals x) c (sent x) (console x).

Definition set_sent (b : Body) (x : Exchange) : Exchange :=
  mkExchange (method x) (path x) (user x) (session_flash x) (locals x) (statusCode x) (Some b) (console x).

Definition set_console (c : list Js.value) (x : Exchange) : Exchange :=
  mkExchange (method x) (path x) (user x) (session_flash x) (locals x) (statusCode x) (sent x) c.

(** How a middleware or handler hands control back: it called [next()],
    it ended the response, or it raised (thrown, or [next(err)]). *)
Inductive Outcome : Type :=
| Next
| Done
| Raise (e : Js.value).

Definition Middleware : Type := Exchange -> Exchange * Outcome.

(** ** The libraries app.js calls *)

(** The messages waiting under a category of the session's notification
    queue; a category that was never written holds none. *)
Definition queued (type : string) (x : Exchange) : list string :=
  default [] (session_flash x !! type).

(** Modelled from the spec: connect-flash's one-argument [req.flash(type)]
    is not under src/.  It is the Notification Queue's drain: it returns the
    messages queued under the category, in order, and empties that
    category; a category with nothing queued yields the empty sequence. *)
Definition req_flash_drain (type : string) (x : Exchange) : list string * Exchange :=
  (queued type x, set_session_flash (delete type (session_flash x)) x).

(** Modelled from the spec: connect-flash's two-argument
    [req.flash(type, msg)] is not under src/.  It queues one message at
    the end of the category's sequence. *)
Definition req_flash_enqueue (type msg : string) (x : Exchange) : Exchange :=
  set_session_flash (<[type := queued type x ++ [msg]]> (session_flash x)) x.

(** Modelled from the spec: passport's [req.isAuthenticated()] is not under
    src/.  The identity is present exactly when [req.user] is set. *)
Definition isAuthenticated (x : Exchange) : bool := Js.truthy (user x).

(** [console.error(e)] *)
Definition console_error (e : Js.value) (x : Exchange) : Exchange :=
  set_console (console x ++ [e]) x.

(** Modelled from the spec: Express's [res.status(code)] is not under src/. *)
Definition res_status (code : Z) (x : Exchange) : Exchange := set_statusCode code x.

(** Modelled from the spec: Express's [res.redirect(url)] is not under
    src/.  It answers with status 302 and the location. *)
Definition res_redirect (url : string) (x : Exchange) : Exchange * Outcome :=
  (set_sent (Redirect url) (set_statusCode 302 x), Done).

(** What the view system does with a view: it renders the page; or the
    view cannot be rendered (it is missing, or its template fails) and the
    failure is reported to Express's [next]; or the call itself throws (the
    engine's module cannot be loaded). *)
Inductive Rendering : Type :=
| Page
| Failed (e : Js.value)
| Thrown (e : Js.value).

(** How a statement inside a handler completes: it returns, having called
    [next()] or [next(err)] or ended the response or none of these, or it
    throws. *)
Inductive Completion : Type :=
| Returned (x : Exchange) (o : Outcome)
| Threw (x : Exchange) (e : Js.value).

(** Modelled from the spec: Express's router is not under src/.  It runs
    every handler inside a [try]: what a handler throws is passed to
    [next(err)]. *)
Definition settle (c : Completion) : Exchange * Outcome :=
  match c with
  | Returned x o => (x, o)
  | Threw x e => (x, Raise e)
  end.

(** The layers app.js registers, in registration order; used to record
    which of them a request went through. *)
Inductive Stage : Type :=
| StJson | StUrlencoded | StMethodOverride | StCors | StMorgan | StStatic
| StSession | StPassportInitialize | StPassportSession | StFlash
| StGlobals
| StAuthRoutes | StUserRoutes | StEscrowRoutes | StPaymentRoutes
| StHome | StEnsureAuthenticated | StDashboard
| StNotFound
| StErrorHandler.

Section Handlers.

(** The view system (Express's [app.render] with EJS behind it) is an
    external collaborator.  It is handed the view's name, the handler's
    options and [res.locals], the options taking precedence. *)
Variable engine : string -> gmap string Js.value -> Rendering.

(** Modelled from the spec: Express's [res.render(view, options)] is not
    under src/.  The context recorded with a rendered view is what app.js
    contributes to it, the options merged over [res.locals]; Express adds
    keys of its own (settings, _locals, cache) that app.js never sets.  A
    view that fails is reported with [req.next(err)] and [res.render]
    returns normally with nothing sent; only a failure of the third kind
    leaves [res.render] as an exception. *)
Definition res_render (view : string) (options : gmap string Js.value)
    (x : Exchange) : Completion :=
  let context := options ∪ locals x in
  match engine view context with
  | Page => Returned (set_sent (Rendered view context) x) Done
  | Failed e => Returned x (Raise e)
  | Thrown e => Threw x e
  end.

(** [try { body } catch (error) { handler }]: the handler runs only for an
    exception thrown by the body. *)
Definition try_catch (body : Exchange -> Completion)
    (handler : Js.value -> Exchange -> Exchange * Outcome)
    (x : Exchange) : Exchange * Outcome :=
  match body x with
  | Returned x' o => (x', o)
  | Threw x' error => handler error x'
  end.

(** *** The handlers of app.js *)

(** Lines 68-74, "Global variables". *)
Definition globals : Middleware := fun x =>
  let x := set_locals (<["user" := (user x || Js.null)%js]> (locals x)) x in
  let '(msgs, x) := req_flash_drain "success_msg" x in
  let x := set_locals (<["success_msg" := Js.strings msgs]> (locals x)) x in
  let '(msgs, x) := req_flash_drain "error_msg" x in
  let x := set_locals (<["error_msg" := Js.strings msgs]> (locals x)) x in
  let '(msgs, x) := req_flash_drain "error" x in
  let x := set_locals (<["error" := Js.strings msgs]> (locals x)) x in
  (x, Next).

(** Lines 87-90: the options of the login view. *)
Definition home_options : gmap string Js.value :=
  <["title" := Js.str "Secure B2B Escrow Platform"]>
    (<["description" :=
         Js.str "A secure platform for B2B transactions with escrow protection"]> ∅).

(** Lines 83-91, "Home route". *)
Definition home : Middleware := fun x =>
  if isAuthenticated x then res_redirect "/dashboard" x
  else settle (res_render "auth/login" home_options x).

(** Lines 98-101: the options of the dashboard view. *)
Definition dashboard_options (x : Exchange) : gmap string Js.value :=
  <["title" := Js.str "Dashboard"]> (<["user" := user x]> ∅).

(** Lines 94-107, the handler of the "Dashboard route (protected)". *)
Definition dashboard : Middleware :=
  try_catch
    (fun x => res_render "dashboard" (dashboard_options x) x)
    (fun error x =>
       let x := console_error error x in
       let x := req_flash_enqueue "error_msg"
                  "An error occurred while loading the dashboard" x in
       res_redirect "/" x).

(** Lines 110-116, "Authentication middleware". *)
Definition ensureAuthenticated : Middleware := fun x =>
  if isAuthenticated x then (x, Next)
  else
    let x := req_flash_enqueue "error_msg" "Please log in to access this resource" x in
    res_redirect "/login" x.

(** Line 94: the dashboard route is the guard followed by the handler. *)
Definition dashboard_route : list (Stage * Middleware) :=
  [(StEnsureAuthenticated, ensureAuthenticated); (StDashboard, dashboard)].

(** The handlers of one route, in order: each runs when its predecessor
    called [next()].  Returns the stages that ran. *)
Fixpoint run_handlers (hs : list (Stage * Middleware)) (x : Exchange)
    : list Stage * Exchange * Outcome :=
  match hs with
  | [] => ([], x, Next)
  | (s, h) :: hs' =>
      match h x with
      | (x', Next) =>
          let '(tr, x'', o) := run_handlers hs' x' in (s :: tr, x'', o)
      | (x', o) => ([s], x', o)
      end
  end.

(** Lines 120-124: the options of the error view. *)
Definition notFound_options : gmap string Js.value :=
  <["title" := Js.str "Page Not Found"]>
    (<["message" := Js.str "The page you requested does not exist"]>
       (<["statusCode" := Js.number 404]> ∅)).

(** Lines 119-125, "404 route - catch-all for undefined routes". *)
Definition notFound : Middleware := fun x =>
  settle (res_render "error" notFound_options (res_status 404 x)).

End Handlers.

(** ** The middleware stack *)

(** What app.js requires but does not define: the third-party middleware,
    the routers under ./routes, ./middleware/errorHandler, the view engine
    and Express's path matching.  Nothing is assumed about them. *)
Record Externals : Type := mkExternals {
  express_json : Middleware;
  express_urlencoded : Middleware;
  methodOverride : Middleware;
  cors : Middleware;
  morgan : Middleware;
  express_static : Middleware;
  session : Middleware;
  passport_initialize : Middleware;
  passport_session : Middleware;
  flash : Middleware;
  authRoutes : Middleware;
  userRoutes : Middleware;
  escrowRoutes : Middleware;
  paymentRoutes : Middleware;
  errorHandler : Js.value -> Middleware;
  view_engine : string -> gmap string Js.value -> Rendering;
  mount_match : string -> Exchange -> bool;
  route_match : string -> string -> Exchange -> bool
}.

Inductive Layer : Type :=
| Use (s : Stage) (h : Middleware)                        (* app.use(h) *)
| Mount (prefix : string) (s : Stage) (h : Middleware)    (* app.use(prefix, router) *)
| Get (pattern : string) (hs : list (Stage * Middleware)) (* app.get(path, h1, .., hn) *)
| UseError (s : Stage) (h : Js.value -> Middleware).      (* app.use(errorHandler) *)

Section Dispatch.

Variable ext : Externals.

(** Modelled from the spec: Express's dispatcher is not under src/.  The
    layers are tried in registration order.  Without a pending error the
    layers that match the request run and error handlers are skipped;
    with a pending error only error handlers run.  A layer that ends the
    response stops the walk.  Returns the stages that ran, in order. *)
Fixpoint dispatch (ls : list Layer) (pending : option Js.value) (x : Exchange)
    : list Stage * Exchange * Outcome :=
  match ls with
  | [] => ([], x, match pending with Some e => Raise e | None => Next end)
  | l :: ls' =>
      let continue (r : list Stage * Exchange * Outcome) :=
        match r with
        | (tr, x', Next) =>
            let '(tr', x'', o) := dispatch ls' None x' in (tr ++ tr', x'', o)
        | (tr, x', Done) => (tr, x', Done)
        | (tr, x', Raise e) =>
            let '(tr', x'', o) := dispatch ls' (Some e) x' in (tr ++ tr', x'', o)
        end in
      match pending, l with
      | None, Use s h =>
          let '(x', o) := h x in continue ([s], x', o)
      | None, Mount prefix s h =>
          if mount_match ext prefix x
          then let '(x', o) := h x in continue ([s], x', o)
          else dispatch ls' None x
      | None, Get pattern hs =>
          if route_match ext "GET" pattern x
          then continue (run_handlers hs x)
          else dispatch ls' None x
      | None, UseError _ _ => dispatch ls' None x
      | Some e, UseError s h =>
          let '(x', o) := h e x in continue ([s], x', o)
      | Some e, _ => dispatch ls' (Some e) x
      end
  end.

(** app.js, lines 37-128: the stack in registration order. *)
Definition app : list Layer :=
  [ Use StJson (express_json ext);
    Use StUrlencoded (express_urlencoded ext);
    Use StMethodOverride (methodOverride ext);
    Use StCors (cors ext);
    Use StMorgan (morgan ext);
    Use StStatic (express_static ext);
    Use StSession (session ext);
    Use StPassportInitialize (passport_initialize ext);
    Use StPassportSession (passport_session ext);
    Use StFlash (flash ext);
    Use StGlobals globals;
    Mount "/" StAuthRoutes (authRoutes ext);
    Mount "/users" StUserRoutes (userRoutes ext);
    Mount "/escrow" StEscrowRoutes (escrowRoutes ext);
    Mount "/payments" StPaymentRoutes (paymentRoutes ext);
    Get "/" [(StHome, home (view_engine ext))];
    Get "/dashboard" (dashboard_route (view_engine ext));
    Use StNotFound (notFound (view_engine ext));
    UseError StErrorHandler (errorHandler ext) ].

(** One request through the application. *)
Definition handle (x : Exchange) : list Stage * Exchange * Outcome :=
  dispatch app None x.

End Dispatch.

(** ** Start-up configuration *)

(** [process.env.NAME]: a string when set, undefined otherwise. *)
Definition process_env (env : gmap string string) (name : string) : Js.value :=
  match env !! name with
  | Some s => Js.str s
  | None => Js.undefined
  end.

(** The options object given to [session(...)], lines 45-58. *)
Record SessionOptions : Type := mkSessionOptions {
  secret : Js.value;
  resave : bool;
  saveUninitialized : bool;
  store_mongoUrl : Js.value;
  store_collectionName : string;
  store_ttl : Z;
  cookie_maxAge : Z;
  cookie_secure : bool
}.

Definition session_options (env : gmap string string) : SessionOptions :=
  {| secret := (process_env env "SESSION_SECRET" || Js.str "your_fallback_session_secret")%js;
     resave := false;
     saveUninitialized := false;
     store_mongoUrl := process_env env "MONGO_URI";
     store_collectionName := "sessions";
     store_ttl := 60 * 60 * 24;
     cookie_maxAge := 1000 * 60 * 60 * 24;
     cookie_secure := Js.strict_eq_str (process_env env "NODE_ENV") "production" |}.

(** Line 131. *)
Definition PORT (env : gmap string string) : Js.value :=
  (process_env env "PORT" || Js.number 3000)%js.

(** Lines 132-135: the port handed to [app.listen] and the environment tag
    of the start-up log. *)
Definition listen (env : gmap string string) : Js.value * Js.value :=
  (PORT env, (process_env env "NODE_ENV" || Js.str "development")%js).

(** ** Vocabulary of the properties *)

Definition guaranteed_keys : list string := ["user"; "success_msg"; "error_msg"; "error"].


Definition stages_of (r : list Stage * Exchange * Outcome) : list Stage := fst (fst r).

(** The stages registered before the routes, lines 37-74. *)
Definition pipeline_prefix : list Stage :=
  [StJson; StUrlencoded; StMethodOverride; StCors; StMorgan; StStatic;
   StSession; StPassportInitialize; StPassportSession; StFlash; StGlobals].

(** The routers, the route handlers and the catch-all, lines 77-125. *)
Definition routed : list Stage :=
  [StAuthRoutes; StUserRoutes; StEscrowRoutes; StPaymentRoutes;
   StHome; StEnsureAuthenticated; StDashboard; StNotFound].

(** A middleware that always calls [next()]. *)
Definition forwards (h : Middleware) : Prop := ∀ y, snd (h y) = Next.

(** ** Sample exchanges *)

Definition anonymous_visit : Exchange :=
  mkExchange "GET" "/dashboard" Js.undefined ∅ ∅ 200 None [].

Definition quiet_engine : string -> gmap string Js.value -> Rendering :=
  fun _ _ => Page.

Definition member_visit : Exchange :=
  mkExchange "GET" "/dashboard" (Js.document [("email", "buyer@example.com")])
    (<["success_msg" := ["You are now logged in"]]> ∅) ∅ 200 None [].

Definition member_home : Exchange :=
  mkExchange "GET" "/" (Js.document [("email", "buyer@example.com")]) ∅ ∅ 200 None [].

Definition anonymous_home : Exchange :=
  mkExchange "GET" "/" Js.undefined ∅ ∅ 200 None [].

(** A view system whose dashboard template fails. *)
Definition broken_dashboard_engine : string -> gmap string Js.value -> Rendering :=
  fun view _ =>
    if String.eqb view "dashboard" then Failed (Js.error "escrows is not defined")
    else Page.

(** A view system that throws when asked for the dashboard. *)
Definition throwing_dashboard_engine : string -> gmap string Js.value -> Rendering :=
  fun view _ =>
    if String.eqb view "dashboard" then Thrown (Js.error "Cannot find module 'ejs'")
    else Page.

(** An environment that only names the database. *)
Definition bare_env : gmap string string :=
  <["MONGO_URI" := "mongodb://localhost:27017/escrow"]> ∅.

(** Collaborators that never interfere: every third-party middleware and
    every router calls [next()] and changes nothing, views always render,
    a router is entered when the path starts with its prefix, and a route
    matches its exact method and path. *)
Definition pass : Middleware := fun x => (x, Next).

Definition passing : Externals :=
  {| express_json := pass; express_urlencoded := pass; methodOverride := pass;
     cors := pass; morgan := pass; express_static := pass;
     session := pass; passport_initialize := pass; passport_session := pass;
     flash := pass;
     authRoutes := pass; userRoutes := pass; escrowRoutes := pass;
     paymentRoutes := pass;
     errorHandler := fun _ x => (set_statusCode 500 x, Done);
     view_engine := quiet_engine;
     mount_match := fun prefix x => String.prefix prefix (path x);
     route_match := fun m pattern x =>
                      String.eqb (method x) m && String.eqb (path x) pattern |}.

(** A visitor who was just turned away from the dashboard (the message of
    [ensureAuthenticated] is waiting in the session) asks for a page that
    does not exist. *)
Definition lost_visit : Exchange :=
  mkExchange "GET" "/nope" Js.undefined
    (<["error_msg" := ["Please log in to access this resource"]]> ∅) ∅ 200 None [].

(** ** Registration order and further samples *)

#[global] Instance Stage_eq_dec : EqDecision Stage.
Proof. solve_decision. Defined.

(** The stages a layer can run. *)
Definition layer_stages (l : Layer) : list Stage :=
  match l with
  | Use s _ => [s]
  | Mount _ s _ => [s]
  | Get _ hs => map fst hs
  | UseError s _ => [s]
  end.

(** Lines 37-128, top to bottom. *)
Definition registration_order : list Stage :=
  [StJson; StUrlencoded; StMethodOverride; StCors; StMorgan; StStatic;
   StSession; StPassportInitialize; StPassportSession; StFlash; StGlobals;
   StAuthRoutes; StUserRoutes; StEscrowRoutes; StPaymentRoutes;
   StHome; StEnsureAuthenticated; StDashboard; StNotFound; StErrorHandler].

(** The handlers that app.js itself attaches to a path, and the catch-all. *)
Definition own_routes : list Stage :=
  [StHome; StEnsureAuthenticated; StDashboard; StNotFound].

(** A deployment that sets everything, the secret to the empty string. *)
Definition production_env : gmap string string :=
  <["NODE_ENV" := "production"]>
    (<["PORT" := "8080"]>
       (<["SESSION_SECRET" := ""]>
          (<["MONGO_URI" := "mongodb://db:27017/escrow"]> ∅))).

(** An exchange that earlier middleware has already written to. *)
Definition busy_visit : Exchange :=
  mkExchange "POST" "/escrow/new" (Js.document [("email", "seller@example.com")])
    (<["info" := ["Draft saved"]]> (<["error" := ["Missing credentials"]]> ∅))
    (<["csrfToken" := Js.str "t0k3n"]> ∅) 200 None [].


(** A view system that cannot find any view. *)
Definition failing_engine : string -> gmap string Js.value -> Rendering :=
  fun _ _ => Failed (Js.error "Failed to lookup view").

(** Collaborators as in [passing], except that the body parser rejects
    the request body. *)
Definition rejecting_body : Externals :=
  {| express_json := fun x => (x, Raise (Js.error "Unexpected token in JSON"));
     express_urlencoded := pass; methodOverride := pass;
     cors := pass; morgan := pass; express_static := pass;
     session := pass; passport_initialize := pass; passport_session := pass;
     flash := pass;
     authRoutes := pass; userRoutes := pass; escrowRoutes := pass;
     paymentRoutes := pass;
     errorHandler := fun _ x => (set_statusCode 500 x, Done);
     view_engine := quiet_engine;
     mount_match := fun prefix x => String.prefix prefix (path x);
     route_match := fun m pattern x =>
                      String.eqb (method x) m && String.eqb (path x) pattern |}.

(** Of the routes that app.js itself defines and its catch-all, at most one
    takes part in a request. *)
Definition one_own_route (tr : list Stage) : Prop :=
  filter (λ s, s ∈ own_routes) tr
  ∈ [ []; [StHome]; [StEnsureAuthenticated];
      [StEnsureAuthenticated; StDashboard]; [StNotFound] ].

(** ** The parts of the stack *)

(** Lines 37-65: the third-party middleware, in registration order. *)
Definition setup (ext : Externals) : list Middleware :=
  [express_json ext; express_urlencoded ext; methodOverride ext; cors ext;
   morgan ext; express_static ext; session ext; passport_initialize ext;
   passport_session ext; flash ext].


(** Lines 77-128: the layers registered after the global-variables
    middleware. *)
Definition routing (ext : Externals) : list Layer := drop 11 (app ext).

(** [app.use(h)], labelled with its stage. *)
Definition use_layer (sh : Stage * Middleware) : Layer := Use (fst sh) (snd sh).

(** The exchange that a chain of middleware hands on when each of them, run
    on what its predecessor left, calls [next()]. *)
Fixpoint forwarded (hs : list Middleware) (x : Exchange) : option Exchange :=
  match hs with
  | [] => Some x
  | h :: hs' =>
      match h x with
      | (x', Next) => forwarded hs' x'
      | _ => None
      end
  end.







(** A logged-in visitor asks for a page that does not exist while a notice
    is waiting. *)
Definition lost_member_visit : Exchange :=
  mkExchange "GET" "/nope" (Js.document [("email", "buyer@example.com")])
    (<["success_msg" := ["You are now logged in"]]> ∅) ∅ 200 None [].

(** * Properties *)

(** ** Worked requests *)

(** The handlers run on concrete requests, with collaborators that never
    interfere. *)

Example anonymous_dashboard_request :
  let '(tr, x', o) := handle passing anonymous_visit in
  tr = pipeline_prefix ++ [StAuthRoutes; StEnsureAuthenticated]
  ∧ o = Done
  ∧ sent x' = Some (Redirect "/login")
  ∧ session_flash x' = <["error_msg" := ["Please log in to access this resource"]]> ∅.
Proof. vm_compute. repeat split. Qed.

Example member_dashboard_request :
  let '(tr, x', o) := handle passing member_visit in
  tr = pipeline_prefix ++ [StAuthRoutes; StEnsureAuthenticated; StDashboard]
  ∧ o = Done
  ∧ statusCode x' = 200
  ∧ session_flash x' = ∅
  ∧ match sent x' with
    | Some (Rendered view context) =>
        view = "dashboard"
        ∧ context !! "title" = Some (Js.str "Dashboard")
        ∧ context !! "user" = Some (user member_visit)
        ∧ context !! "success_msg" = Some (Js.strings ["You are now logged in"])
        ∧ context !! "error_msg" = Some (Js.strings [])
        ∧ context !! "error" = Some (Js.strings [])
    | _ => False
    end.
Proof. vm_compute. repeat split. Qed.

Example anonymous_home_request :
  let '(tr, x', o) := handle passing anonymous_home in
  tr = pipeline_prefix ++ [StAuthRoutes; StHome]
  ∧ o = Done
  ∧ match sent x' with
    | Some (Rendered view context) =>
        view = "auth/login" ∧ context !! "user" = Some Js.null
    | _ => False
    end.
Proof. vm_compute. repeat split. Qed.

Example member_home_request :
  let '(tr, x', o) := handle passing member_home in
  tr = pipeline_prefix ++ [StAuthRoutes; StHome]
  ∧ o = Done
  ∧ sent x' = Some (Redirect "/dashboard").
Proof. vm_compute. repeat split. Qed.

Example broken_dashboard_request :
  dashboard broken_dashboard_engine member_visit
  = (member_visit, Raise (Js.error "escrows is not defined")).
Proof. reflexivity. Qed.

Example throwing_dashboard_request :
  let '(x', o) := dashboard throwing_dashboard_engine member_visit in
  o = Done
  ∧ sent x' = Some (Redirect "/")
  ∧ console x' = [Js.error "Cannot find module 'ejs'"]
  ∧ queued "error_msg" x' = ["An error occurred while loading the dashboard"].
Proof. vm_compute. repeat split. Qed.

(** ** The notification queue *)

Lemma queued_enqueue_eq (type msg : string) (x : Exchange) :
  queued type (req_flash_enqueue type msg x) = queued type x ++ [msg].
Proof. unfold queued at 1. simpl. by rewrite lookup_insert_eq. Qed.

Lemma queued_enqueue_ne (type type' msg : string) (x : Exchange) :
  type ≠ type' → queued type' (req_flash_enqueue type msg x) = queued type' x.
Proof. intros Hne. unfold queued. simpl. by rewrite lookup_insert_ne. Qed.

Lemma queued_drain_eq (type : string) (x : Exchange) :
  queued type (snd (req_flash_drain type x)) = [].
Proof. unfold queued. simpl. by rewrite lookup_delete_eq. Qed.

Lemma queued_drain_ne (type type' : string) (x : Exchange) :
  type ≠ type' → queued type' (snd (req_flash_drain type x)) = queued type' x.
Proof. intros Hne. unfold queued. simpl. by rewrite lookup_delete_ne. Qed.

(** ** The authorization gate *)

(** C1: a request without a present identity that reaches the dashboard
    route is stopped by [ensureAuthenticated]: the dashboard handler does
    not run (the only stage of the route that runs is the gate, and the
    view engine is never consulted), exactly one message, the fixed
    required-login text, is appended to the category "error_msg" (the
    error notifications of the views) and no other category changes, and
    the response is a redirect to /login. *)
Theorem dashboard_route_unauthenticated
    (engine : string -> gmap string Js.value -> Rendering) (x : Exchange) :
  isAuthenticated x = false →
  ∃ x',
    run_handlers (dashboard_route engine) x = ([StEnsureAuthenticated], x', Done)
    ∧ ensureAuthenticated x = (x', Done)
    ∧ sent x' = Some (Redirect "/login")
    ∧ statusCode x' = 302
    ∧ queued "error_msg" x' =
        queued "error_msg" x ++ ["Please log in to access this resource"]
    ∧ (∀ type, type ≠ "error_msg" → queued type x' = queued type x)
    ∧ user x' = user x ∧ locals x' = locals x ∧ console x' = console x.
Proof.
  intros Hanon.
  eexists. split.
  { simpl. unfold ensureAuthenticated. rewrite Hanon. reflexivity. }
  split.
  { unfold ensureAuthenticated. rewrite Hanon. reflexivity. }
  repeat split; try reflexivity.
  - apply queued_enqueue_eq.
  - intros type Hne. simpl.
    change (queued type (req_flash_enqueue "error_msg"
              "Please log in to access this resource" x) = queued type x).
    apply queued_enqueue_ne. congruence.
Qed.

Lemma dashboard_route_unauthenticated_witness :
  ∃ x',
    run_handlers (dashboard_route quiet_engine) anonymous_visit
      = ([StEnsureAuthenticated], x', Done)
    ∧ ensureAuthenticated anonymous_visit = (x', Done)
    ∧ sent x' = Some (Redirect "/login")
    ∧ statusCode x' = 302
    ∧ queued "error_msg" x' =
        queued "error_msg" anonymous_visit ++ ["Please log in to access this resource"]
    ∧ (∀ type, type ≠ "error_msg" → queued type x' = queued type anonymous_visit)
    ∧ user x' = user anonymous_visit ∧ locals x' = locals anonymous_visit
    ∧ console x' = console anonymous_visit.
Proof. apply (dashboard_route_unauthenticated quiet_engine anonymous_visit). reflexivity. Defined.

(** C2: when the identity is present, [ensureAuthenticated] calls [next()]
    and returns the exchange exactly as it received it: session, queue,
    locals and response are untouched and nothing is sent; the dashboard
    route then runs the dashboard handler on that same exchange. *)
Theorem ensureAuthenticated_passes
    (engine : string -> gmap string Js.value -> Rendering) (x : Exchange) :
  isAuthenticated x = true →
  ensureAuthenticated x = (x, Next)
  ∧ ∃ x' o,
      dashboard engine x = (x', o)
      ∧ run_handlers (dashboard_route engine) x
          = ([StEnsureAuthenticated; StDashboard], x', o).
Proof.
  intros Hauth.
  assert (Hgate : ensureAuthenticated x = (x, Next)).
  { unfold ensureAuthenticated. by rewrite Hauth. }
  split; [exact Hgate |].
  destruct (dashboard engine x) as [x' o] eqn:Hd.
  exists x', o. split; [reflexivity |].
  simpl. rewrite Hgate, Hd. by destruct o.
Qed.

Lemma ensureAuthenticated_passes_witness :
  ensureAuthenticated member_visit = (member_visit, Next)
  ∧ ∃ x' o,
      dashboard quiet_engine member_visit = (x', o)
      ∧ run_handlers (dashboard_route quiet_engine) member_visit
          = ([StEnsureAuthenticated; StDashboard], x', o).
Proof. apply (ensureAuthenticated_passes quiet_engine member_visit). reflexivity. Defined.

(** ** The global-variables middleware *)

Lemma globals_next (x : Exchange) : snd (globals x) = Next.
Proof. reflexivity. Qed.

Lemma globals_session_flash (x : Exchange) :
  session_flash (fst (globals x))
  = delete "error" (delete "error_msg" (delete "success_msg" (session_flash x))).
Proof. reflexivity. Qed.

Lemma globals_locals (x : Exchange) :
  locals (fst (globals x))
  = <["error" := Js.strings (queued "error" x)]>
      (<["error_msg" := Js.strings (queued "error_msg" x)]>
         (<["success_msg" := Js.strings (queued "success_msg" x)]>
            (<["user" := (user x || Js.null)%js]> (locals x)))).
Proof.
  unfold globals, req_flash_drain, queued. simpl.
  rewrite !lookup_delete_ne by done. reflexivity.
Qed.

Lemma globals_queued (type : string) (x : Exchange) :
  queued type (fst (globals x))
  = if decide (type ∈ ["success_msg"; "error_msg"; "error"]) then [] else queued type x.
Proof.
  unfold queued. rewrite globals_session_flash.
  case_decide as Hin.
  - rewrite !elem_of_cons in Hin.
    destruct Hin as [-> | [-> | [-> | Hin]]]; [ | | | by apply elem_of_nil in Hin ].
    + by rewrite !lookup_delete_ne, lookup_delete_eq by done.
    + by rewrite lookup_delete_ne, lookup_delete_eq by done.
    + by rewrite lookup_delete_eq.
  - rewrite !lookup_delete_ne; [done | | | ];
      intros <-; apply Hin; set_solver.
Qed.

(** C3: draining a category twice in a row yields the empty sequence the
    second time.  The global-variables middleware hands the messages queued
    under its three categories to the first render, after which each of the
    three categories is empty: a drain of it returns [], and when the
    middleware runs again for the next render of the same session it
    exposes three empty lists. *)
Theorem flash_drain_exactly_once (x : Exchange) :
  (∀ type y, fst (req_flash_drain type (snd (req_flash_drain type y))) = [])
  ∧ locals (fst (globals x)) !! "success_msg" = Some (Js.strings (queued "success_msg" x))
  ∧ locals (fst (globals x)) !! "error_msg" = Some (Js.strings (queued "error_msg" x))
  ∧ locals (fst (globals x)) !! "error" = Some (Js.strings (queued "error" x))
  ∧ fst (req_flash_drain "success_msg" (fst (globals x))) = []
  ∧ fst (req_flash_drain "error_msg" (fst (globals x))) = []
  ∧ fst (req_flash_drain "error" (fst (globals x))) = []
  ∧ locals (fst (globals (fst (globals x)))) !! "success_msg" = Some (Js.strings [])
  ∧ locals (fst (globals (fst (globals x)))) !! "error_msg" = Some (Js.strings [])
  ∧ locals (fst (globals (fst (globals x)))) !! "error" = Some (Js.strings []).
Proof.
  split.
  { intros type y. apply queued_drain_eq. }
  rewrite !globals_locals.
  repeat split.
  - by rewrite !lookup_insert_ne, lookup_insert_eq by done.
  - by rewrite lookup_insert_ne, lookup_insert_eq by done.
  - by rewrite lookup_insert_eq.
  - change (queued "success_msg" (fst (globals x)) = []). by rewrite globals_queued.
  - change (queued "error_msg" (fst (globals x)) = []). by rewrite globals_queued.
  - change (queued "error" (fst (globals x)) = []). by rewrite globals_queued.
  - rewrite !lookup_insert_ne, lookup_insert_eq by done. by rewrite globals_queued.
  - rewrite lookup_insert_ne, lookup_insert_eq by done. by rewrite globals_queued.
  - rewrite lookup_insert_eq. by rewrite globals_queued.
Qed.

(** C6: [res.locals.user] is [req.user] when the identity is present and
    the explicit marker [null] otherwise; it is never [undefined] nor any
    other falsy value.  On a first visit (no identity, nothing in the
    session) the marker is [null] and the notification lists are empty. *)
Theorem globals_user_or_null (x : Exchange) :
  (isAuthenticated x = true → locals (fst (globals x)) !! "user" = Some (user x))
  ∧ (isAuthenticated x = false → locals (fst (globals x)) !! "user" = Some Js.null)
  ∧ (∃ v, locals (fst (globals x)) !! "user" = Some v
          ∧ v ≠ Js.undefined
          ∧ (v = Js.null ∨ Js.truthy v = true))
  ∧ (user x = Js.undefined → session_flash x = ∅ →
       locals (fst (globals x)) !! "user" = Some Js.null
       ∧ locals (fst (globals x)) !! "success_msg" = Some (Js.strings [])
       ∧ locals (fst (globals x)) !! "error_msg" = Some (Js.strings [])
       ∧ locals (fst (globals x)) !! "error" = Some (Js.strings [])).
Proof.
  assert (Hu : locals (fst (globals x)) !! "user" = Some (user x || Js.null)%js).
  { rewrite globals_locals. by rewrite !lookup_insert_ne, lookup_insert_eq by done. }
  unfold isAuthenticated. unfold Js.or in Hu.
  split; [ | split; [ | split ] ].
  - intros Ht. by rewrite Hu, Ht.
  - intros Hf. by rewrite Hu, Hf.
  - eexists. split; [exact Hu |].
    destruct (Js.truthy (user x)) eqn:Ht.
    + split; [ | by right ]. intros Heq. by rewrite Heq in Ht.
    + split; [ done | by left ].
  - intros Hundef Hempty. rewrite Hu, Hundef.
    rewrite globals_locals. unfold queued. rewrite Hempty, !lookup_empty.
    split; [ reflexivity | split; [ | split ] ].
    + by rewrite !lookup_insert_ne, lookup_insert_eq by done.
    + by rewrite lookup_insert_ne, lookup_insert_eq by done.
    + by rewrite lookup_insert_eq.
Qed.

Lemma globals_user_or_null_witness :
  locals (fst (globals member_visit)) !! "user" = Some (user member_visit)
  ∧ locals (fst (globals anonymous_visit)) !! "user" = Some Js.null
  ∧ locals (fst (globals anonymous_visit)) !! "success_msg" = Some (Js.strings [])
  ∧ locals (fst (globals anonymous_visit)) !! "error_msg" = Some (Js.strings [])
  ∧ locals (fst (globals anonymous_visit)) !! "error" = Some (Js.strings []).
Proof.
  split.
  { apply (proj1 (globals_user_or_null member_visit)). reflexivity. }
  apply (proj2 (proj2 (proj2 (globals_user_or_null anonymous_visit))));
    reflexivity.
Defined.

(** ** The home route *)

(** C4: on the root path a present identity is answered with a redirect to
    /dashboard and the view system is not consulted; without an identity the
    handler renders the view auth/login, and the context handed to the view
    carries the fixed title and the fixed description.  The response is that
    rendered view whenever the view system renders the view on the context
    it is handed. *)
Theorem home_redirects_or_renders_login
    (engine : string -> gmap string Js.value -> Rendering) (x : Exchange) :
  (isAuthenticated x = true →
     ∃ x', home engine x = (x', Done)
           ∧ sent x' = Some (Redirect "/dashboard") ∧ statusCode x' = 302
           ∧ session_flash x' = session_flash x ∧ locals x' = locals x)
  ∧ (isAuthenticated x = false →
     engine "auth/login" (home_options ∪ locals x) = Page →
     ∃ x' context,
       home engine x = (x', Done)
       ∧ sent x' = Some (Rendered "auth/login" context)
       ∧ statusCode x' = statusCode x
       ∧ context !! "title" = Some (Js.str "Secure B2B Escrow Platform")
       ∧ context !! "description" =
           Some (Js.str "A secure platform for B2B transactions with escrow protection")).
Proof.
  split; intros Hid.
  - eexists. unfold home. rewrite Hid. repeat split; reflexivity.
  - intros Hengine. unfold home, res_render. rewrite Hid, Hengine.
    eexists _, _. split; [reflexivity |]. split; [reflexivity |].
    split; [reflexivity |]. split.
    + apply lookup_union_Some_l. unfold home_options. by rewrite lookup_insert_eq.
    + apply lookup_union_Some_l. unfold home_options.
      by rewrite lookup_insert_ne, lookup_insert_eq by done.
Qed.

Lemma home_redirects_or_renders_login_witness :
  (∃ x', home quiet_engine member_home = (x', Done)
         ∧ sent x' = Some (Redirect "/dashboard") ∧ statusCode x' = 302
         ∧ session_flash x' = session_flash member_home
         ∧ locals x' = locals member_home)
  ∧ (∃ x' context,
       home quiet_engine anonymous_home = (x', Done)
       ∧ sent x' = Some (Rendered "auth/login" context)
       ∧ statusCode x' = statusCode anonymous_home
       ∧ context !! "title" = Some (Js.str "Secure B2B Escrow Platform")
       ∧ context !! "description" =
           Some (Js.str "A secure platform for B2B transactions with escrow protection")).
Proof.
  split.
  - apply (proj1 (home_redirects_or_renders_login quiet_engine member_home)).
    reflexivity.
  - apply (proj2 (home_redirects_or_renders_login quiet_engine anonymous_home)).
    + reflexivity.
    + reflexivity.
Defined.

(** ** The dashboard handler *)

(** C5, as stated, fails: for a logged-in user whose dashboard view cannot
    be rendered, the failure is handed to Express's [next]; the [catch] of
    the handler is not entered, so nothing is logged, no notice is queued
    and nothing is sent: the failure is propagated. *)
Lemma failing_dashboard_view_is_propagated :
  let '(x', o) := dashboard broken_dashboard_engine member_visit in
  o = Raise (Js.error "escrows is not defined")
  ∧ console x' = []
  ∧ queued "error_msg" x' = []
  ∧ sent x' = None.
Proof. vm_compute. repeat split. Qed.

(** C5, amended: whenever the body of the handler's [try] throws [e], the
    handler logs [e] with [console.error], appends exactly one message, the
    fixed generic text, to the category "error_msg", leaves the other
    categories alone and answers with a redirect to the root path; the
    failure is neither propagated nor rendered. *)
Theorem dashboard_failure_recovered
    (engine : string -> gmap string Js.value -> Rendering) (x : Exchange) (e : Js.value) :
  engine "dashboard" (dashboard_options x ∪ locals x) = Thrown e →
  ∃ x',
    dashboard engine x = (x', Done)
    ∧ console x' = console x ++ [e]
    ∧ queued "error_msg" x' =
        queued "error_msg" x ++ ["An error occurred while loading the dashboard"]
    ∧ (∀ type, type ≠ "error_msg" → queued type x' = queued type x)
    ∧ sent x' = Some (Redirect "/")
    ∧ statusCode x' = 302
    ∧ locals x' = locals x.
Proof.
  intros He. unfold dashboard, try_catch, res_render. rewrite He.
  eexists. split; [reflexivity |].
  repeat split.
  - apply (queued_enqueue_eq "error_msg" _ (console_error e x)).
  - intros type Hne.
    apply (queued_enqueue_ne "error_msg" type _ (console_error e x)). congruence.
Qed.

Lemma dashboard_failure_recovered_witness :
  ∃ x',
    dashboard throwing_dashboard_engine member_visit = (x', Done)
    ∧ console x' = console member_visit ++ [Js.error "Cannot find module 'ejs'"]
    ∧ queued "error_msg" x' =
        queued "error_msg" member_visit ++ ["An error occurred while loading the dashboard"]
    ∧ (∀ type, type ≠ "error_msg" → queued type x' = queued type member_visit)
    ∧ sent x' = Some (Redirect "/")
    ∧ statusCode x' = 302
    ∧ locals x' = locals member_visit.
Proof.
  apply (dashboard_failure_recovered throwing_dashboard_engine member_visit
           (Js.error "Cannot find module 'ejs'")).
  reflexivity.
Defined.

(** ** Start-up configuration *)

Lemma process_env_unset (env : gmap string string) (name : string) :
  env !! name = None → process_env env name = Js.undefined.
Proof. intros H. unfold process_env. by rewrite H. Qed.

(** C10: the session options and the listening port are defined for every
    environment.  When SESSION_SECRET is not set the secret is the fixed
    fallback string, and when PORT is not set [app.listen] is given the
    fixed port 3000. *)
Theorem startup_fallbacks (env : gmap string string) :
  (env !! "SESSION_SECRET" = None →
     secret (session_options env) = Js.str "your_fallback_session_secret")
  ∧ (env !! "PORT" = None →
       PORT env = Js.number 3000 ∧ fst (listen env) = Js.number 3000).
Proof.
  split; intros Hunset.
  - simpl. by rewrite (process_env_unset _ _ Hunset).
  - unfold listen, PORT. by rewrite (process_env_unset _ _ Hunset).
Qed.

Lemma startup_fallbacks_witness :
  secret (session_options bare_env) = Js.str "your_fallback_session_secret"
  ∧ PORT bare_env = Js.number 3000 ∧ fst (listen bare_env) = Js.number 3000.
Proof.
  split.
  - apply (proj1 (startup_fallbacks bare_env)). reflexivity.
  - apply (proj2 (startup_fallbacks bare_env)). reflexivity.
Defined.

(** ** What the handlers keep and where they end *)



Section HandlerFacts.

Variable engine : string -> gmap string Js.value -> Rendering.











Lemma notFound_never_next y : snd (notFound engine y) ≠ Next.
Proof. unfold notFound, res_render. by destruct (engine "error" _). Qed.

Lemma home_never_next y : snd (home engine y) ≠ Next.
Proof.
  unfold home, res_render. destruct (isAuthenticated y); [done |].
  by destruct (engine "auth/login" _).
Qed.

Lemma dashboard_never_next y : snd (dashboard engine y) ≠ Next.
Proof.
  unfold dashboard, try_catch, res_render.
  by destruct (engine "dashboard" _).
Qed.


Lemma ensureAuthenticated_never_raises y e : snd (ensureAuthenticated y) ≠ Raise e.
Proof. unfold ensureAuthenticated. by destruct (isAuthenticated y). Qed.


End HandlerFacts.

(** ** The walk through the stack *)



Lemma forwarded_forwards (hs : list Middleware) (x : Exchange) :
  Forall forwards hs → ∃ y, forwarded hs x = Some y.
Proof.
  intros Hhs. revert x. induction Hhs as [| h hs Hh _ IH]; intros x; simpl.
  - by eexists.
  - specialize (Hh x). destruct (h x) as [x' o]. simpl in Hh. subst o. apply IH.
Qed.

(** [H : s ∈ routed] for a stage [s] that is not a route. *)
Ltac not_routed H :=
  exfalso; unfold routed in H;
  repeat (apply elem_of_cons in H as [H | H]; [ discriminate H | ]);
  by apply elem_of_nil in H.


Section Walk.

Variable ext : Externals.

Lemma run_handlers_stages hs x :
  fst (fst (run_handlers hs x)) `sublist_of` map fst hs.
Proof.
  revert x. induction hs as [| [s h] hs IH]; intros x; simpl; [done |].
  destruct (h x) as [x' [| | e]]; simpl.
  - specialize (IH x'). destruct (run_handlers hs x') as [[tr x''] o]. simpl in *.
    by apply sublist_skip.
  - apply sublist_skip, sublist_nil_l.
  - apply sublist_skip, sublist_nil_l.
Qed.

(** After a layer handed back [(tr, x', o)], the stages that ran are [tr]
    followed by what the rest of the stack runs. *)
Lemma continue_sublist (ls : list Layer) (here : list Stage)
    (tr : list Stage) (x' : Exchange) (o : Outcome) :
  (∀ p y, stages_of (dispatch ext ls p y) `sublist_of` flat_map layer_stages ls) →
  tr `sublist_of` here →
  stages_of
    match o with
    | Next => let '(tr', x'', o') := dispatch ext ls None x' in (tr ++ tr', x'', o')
    | Done => (tr, x', Done)
    | Raise e =>
        let '(tr', x'', o') := dispatch ext ls (Some e) x' in (tr ++ tr', x'', o')
    end
  `sublist_of` here ++ flat_map layer_stages ls.
Proof.
  intros IH Htr. destruct o as [| | e].
  - specialize (IH None x'). destruct (dispatch ext ls None x') as [[tr' x''] o'].
    by apply sublist_app.
  - by apply sublist_inserts_r.
  - specialize (IH (Some e) x').
    destruct (dispatch ext ls (Some e) x') as [[tr' x''] o'].
    by apply sublist_app.
Qed.

Lemma dispatch_stages_sublist ls p x :
  stages_of (dispatch ext ls p x) `sublist_of` flat_map layer_stages ls.
Proof.
  revert p x. induction ls as [| l ls IH]; intros p x; [done |].
  assert (Hone : ∀ s : Stage, [s] `sublist_of` [s]) by done.
  destruct p as [e |], l as [s h | prefix s h | pattern hs | s h];
    cbn [dispatch flat_map layer_stages].
  - apply sublist_inserts_l, IH.
  - apply sublist_inserts_l, IH.
  - apply sublist_inserts_l, IH.
  - destruct (h e x) as [x' o]. by apply continue_sublist.
  - destruct (h x) as [x' o]. by apply continue_sublist.
  - destruct (mount_match ext prefix x).
    + destruct (h x) as [x' o]. by apply continue_sublist.
    + apply sublist_inserts_l, IH.
  - destruct (route_match ext "GET" pattern x).
    + pose proof (run_handlers_stages hs x) as Hr.
      destruct (run_handlers hs x) as [[tr x'] o]. by apply continue_sublist.
    + apply sublist_inserts_l, IH.
  - apply sublist_inserts_l, IH.
Qed.

Lemma registration_order_NoDup : NoDup registration_order.
Proof. apply (bool_decide_unpack _). by vm_compute. Qed.

(** One layer of the walk: the layer is skipped, or it ends the response,
    or the walk goes on below it (with or without a pending error). *)
Lemma dispatch_step l ls p x :
  dispatch ext (l :: ls) p x = dispatch ext ls p x
  ∨ (∃ tr x', tr `sublist_of` layer_stages l
              ∧ dispatch ext (l :: ls) p x = (tr, x', Done))
  ∨ (∃ tr x' p', tr `sublist_of` layer_stages l
                 ∧ dispatch ext (l :: ls) p x
                   = (tr ++ stages_of (dispatch ext ls p' x'),
                      snd (fst (dispatch ext ls p' x')),
                      snd (dispatch ext ls p' x'))).
Proof.
  assert (Hgo : ∀ tr x' o,
            tr `sublist_of` layer_stages l →
            (∃ tr0 x0, tr0 `sublist_of` layer_stages l
               ∧ match o with
                 | Next =>
                     let '(tr', x'', o') := dispatch ext ls None x' in (tr ++ tr', x'', o')
                 | Done => (tr, x', Done)
                 | Raise e =>
                     let '(tr', x'', o') := dispatch ext ls (Some e) x' in
                     (tr ++ tr', x'', o')
                 end = (tr0, x0, Done))
            ∨ (∃ tr0 x0 p', tr0 `sublist_of` layer_stages l
                 ∧ match o with
                   | Next =>
                       let '(tr', x'', o') := dispatch ext ls None x' in (tr ++ tr', x'', o')
                   | Done => (tr, x', Done)
                   | Raise e =>
                       let '(tr', x'', o') := dispatch ext ls (Some e) x' in
                       (tr ++ tr', x'', o')
                   end
                   = (tr0 ++ stages_of (dispatch ext ls p' x0),
                      snd (fst (dispatch ext ls p' x0)),
                      snd (dispatch ext ls p' x0)))).
  { intros tr x' o Htr. destruct o as [| | e].
    - right. exists tr, x', None. split; [done |].
      by destruct (dispatch ext ls None x') as [[tr' x''] o'].
    - left. by exists tr, x'.
    - right. exists tr, x', (Some e). split; [done |].
      by destruct (dispatch ext ls (Some e) x') as [[tr' x''] o']. }
  destruct p as [e |], l as [s h | prefix s h | pattern hs | s h];
    cbn [dispatch]; try (by left).
  - right. destruct (h e x) as [x' o]. by apply Hgo.
  - right. destruct (h x) as [x' o]. by apply Hgo.
  - destruct (mount_match ext prefix x); [ | by left ].
    right. destruct (h x) as [x' o]. by apply Hgo.
  - destruct (route_match ext "GET" pattern x); [ | by left ].
    right. pose proof (run_handlers_stages hs x) as Hr.
    destruct (run_handlers hs x) as [[tr x'] o]. by apply Hgo.
Qed.

(** A stack that ends with a handler that never calls [next()] followed by
    an error handler: every walk either ends the response, or ends in the
    error handler with the error handler's outcome. *)
Lemma dispatch_answered pre sN hN sE hE :
  (∀ y, snd (hN y) ≠ Next) →
  ∀ p x,
    snd (dispatch ext (pre ++ [Use sN hN; UseError sE hE]) p x) = Done
    ∨ (sE ∈ stages_of (dispatch ext (pre ++ [Use sN hN; UseError sE hE]) p x)
       ∧ ∃ e y, snd (dispatch ext (pre ++ [Use sN hN; UseError sE hE]) p x)
                = snd (hE e y)).
Proof.
  intros HN.
  assert (Hlast : ∀ e y,
            dispatch ext [Use sN hN; UseError sE hE] (Some e) y
            = ([sE], fst (hE e y), snd (hE e y))).
  { intros e y. simpl. by destruct (hE e y) as [y' [| | e']]. }
  induction pre as [| l pre IH]; intros p x.
  - destruct p as [e |].
    + rewrite Hlast. right. split; [apply list_elem_of_here | by exists e, x].
    + simpl. specialize (HN x). destruct (hN x) as [x' [| | e]]; simpl in HN.
      * done.
      * by left.
      * right. destruct (hE e x') as [x'' o] eqn:HE.
        split.
        -- destruct o; unfold stages_of; simpl; repeat constructor.
        -- exists e, x'. rewrite HE. by destruct o.
  - rewrite <- app_comm_cons.
    destruct (dispatch_step l (pre ++ [Use sN hN; UseError sE hE]) p x)
      as [-> | [(tr & x' & _ & ->) | (tr & x' & p' & _ & ->)]].
    + apply IH.
    + by left.
    + simpl. destruct (IH p' x') as [Hd | [Hin He]]; [by left |].
      right. split; [ | exact He ].
      unfold stages_of. simpl. apply elem_of_app. by right.
Qed.

Lemma filter_own_routes_nil (tr here : list Stage) :
  tr `sublist_of` here → (∀ s, s ∈ here → s ∉ own_routes) →
  filter (λ s, s ∈ own_routes) tr = [].
Proof.
  intros Hsub Hhere. induction tr as [| s tr IH]; [done |].
  rewrite filter_cons_False.
  - apply IH. etrans; [ | exact Hsub ]. by apply sublist_cons.
  - apply Hhere. eapply elem_of_sublist; [ | exact Hsub ]. apply list_elem_of_here.
Qed.

(** A layer that is not one of the own routes does not change which of
    them take part. *)
Lemma one_own_route_cons l ls :
  (∀ s, s ∈ layer_stages l → s ∉ own_routes) →
  (∀ p y, one_own_route (stages_of (dispatch ext ls p y))) →
  ∀ p y, one_own_route (stages_of (dispatch ext (l :: ls) p y)).
Proof.
  intros Hl IH p y.
  destruct (dispatch_step l ls p y)
    as [-> | [(tr & x' & Htr & ->) | (tr & x' & p' & Htr & ->)]].
  - apply IH.
  - unfold one_own_route, stages_of. simpl.
    rewrite (filter_own_routes_nil tr _ Htr Hl). apply list_elem_of_here.
  - unfold one_own_route. unfold stages_of at 1. simpl.
    rewrite filter_app, (filter_own_routes_nil tr _ Htr Hl). apply IH.
Qed.

(** *** The middleware before the routes *)

Lemma dispatch_use s h ls x :
  dispatch ext (Use s h :: ls) None x
  = match h x with
    | (x', Next) =>
        (s :: stages_of (dispatch ext ls None x'),
         snd (fst (dispatch ext ls None x')), snd (dispatch ext ls None x'))
    | (x', Done) => ([s], x', Done)
    | (x', Raise e) =>
        (s :: stages_of (dispatch ext ls (Some e) x'),
         snd (fst (dispatch ext ls (Some e) x')), snd (dispatch ext ls (Some e) x'))
    end.
Proof.
  cbn [dispatch]. destruct (h x) as [x' [| | e]]; [ | done | ].
  - by destruct (dispatch ext ls None x') as [[tr x''] o].
  - by destruct (dispatch ext ls (Some e) x') as [[tr x''] o].
Qed.

Lemma dispatch_pending_uses shs rest e y :
  dispatch ext (map use_layer shs ++ rest) (Some e) y = dispatch ext rest (Some e) y.
Proof. induction shs as [| [s h] shs IH]; [done | exact IH]. Qed.

(** A run of [app.use(h)] layers: when each of them calls [next()] the walk
    goes on below them from the exchange they hand on; otherwise nothing
    below them runs but what handles the error. *)
Lemma dispatch_uses shs rest x :
  match forwarded (map snd shs) x with
  | Some y =>
      dispatch ext (map use_layer shs ++ rest) None x
      = (map fst shs ++ stages_of (dispatch ext rest None y),
         snd (fst (dispatch ext rest None y)), snd (dispatch ext rest None y))
  | None =>
      ∀ s, s ∈ stages_of (dispatch ext (map use_layer shs ++ rest) None x) →
           s ∈ map fst shs ∨ ∃ e y, s ∈ stages_of (dispatch ext rest (Some e) y)
  end.
Proof.
  revert x. induction shs as [| [s h] shs IH]; intros x.
  - simpl. by destruct (dispatch ext rest None x) as [[tr x'] o].
  - cbn [map fst snd forwarded]. change (use_layer (s, h)) with (Use s h).
    rewrite <- !app_comm_cons, dispatch_use.
    destruct (h x) as [x1 [| | e]].
    + specialize (IH x1). destruct (forwarded (map snd shs) x1) as [y |].
      * by rewrite IH.
      * intros s0 Hs0. unfold stages_of in Hs0 at 1. simpl in Hs0.
        apply elem_of_cons in Hs0 as [-> | Hs0]; [left; apply list_elem_of_here |].
        destruct (IH s0 Hs0) as [Hin | Herr]; [left; by apply list_elem_of_further | by right].
    + intros s0 Hs0. left. unfold stages_of in Hs0. simpl in Hs0.
      apply list_elem_of_singleton in Hs0 as ->. apply list_elem_of_here.
    + intros s0 Hs0. unfold stages_of in Hs0 at 1. simpl in Hs0.
      apply elem_of_cons in Hs0 as [-> | Hs0]; [left; apply list_elem_of_here |].
      rewrite dispatch_pending_uses in Hs0. right. by exists e, x1.
Qed.

Lemma pending_below_setup e y :
  stages_of (dispatch ext (Use StGlobals globals :: routing ext) (Some e) y)
  = [StErrorHandler].
Proof. simpl. by destruct (errorHandler ext e y) as [y' [| | e']]. Qed.

(** The ten third-party middleware and the global-variables middleware:
    when the ten call [next()], the routes are walked from the exchange the
    global-variables middleware makes of what they hand on; otherwise none
    of the later layers runs except, after a failure, the error handler. *)
Lemma handle_setup x :
  match forwarded (setup ext) x with
  | Some y =>
      handle ext x
      = (pipeline_prefix ++ stages_of (dispatch ext (routing ext) None (fst (globals y))),
         snd (fst (dispatch ext (routing ext) None (fst (globals y)))),
         snd (dispatch ext (routing ext) None (fst (globals y))))
  | None =>
      ∀ s, s ∈ stages_of (handle ext x) →
           s ∈ take 10 registration_order ∨ s = StErrorHandler
  end.
Proof.
  pose proof (dispatch_uses (zip (take 10 registration_order) (setup ext))
                (Use StGlobals globals :: routing ext) x) as H.
  change (map snd (zip (take 10 registration_order) (setup ext)))
    with (setup ext) in H.
  change (map use_layer (zip (take 10 registration_order) (setup ext))
            ++ Use StGlobals globals :: routing ext)
    with (app ext) in H.
  fold (handle ext x) in H.
  destruct (forwarded (setup ext) x) as [y |].
  - rewrite H, dispatch_use.
    pose proof (globals_next y) as Hn.
    destruct (globals y) as [g o]. simpl in Hn. subst o. reflexivity.
  - intros s Hs. destruct (H s Hs) as [Hin | (e & y & Herr)]; [by left |].
    right. rewrite pending_below_setup in Herr.
    by apply list_elem_of_singleton in Herr.
Qed.

(** *** The routes *)





End Walk.

(** ** The catch-all handler *)




(** ** The view context *)




(** ** Registration order *)

(** C9, as stated, fails: when the body parser rejects a request, a handler
    runs (the error handler, which answers) although neither the session
    middleware nor the global-variables middleware has run. *)
Lemma error_handler_runs_without_session :
  let '(tr, x', o) := handle rejecting_body lost_visit in
  tr = [StJson; StErrorHandler]
  ∧ o = Done
  ∧ (StSession ∉ tr)
  ∧ (StGlobals ∉ tr)
  ∧ locals x' !! "user" = None.
Proof.
  assert (H : handle rejecting_body lost_visit
              = ([StJson; StErrorHandler], set_statusCode 500 lost_visit, Done))
    by reflexivity.
  rewrite H.
  split; [reflexivity |]. split; [reflexivity |].
  split; [ apply (bool_decide_unpack _); by vm_compute |].
  split; [ apply (bool_decide_unpack _); by vm_compute | reflexivity ].
Qed.

(** C9, amended.  Whatever the collaborators do and whatever the method and
    path of the request, protected route or not: if a router, a route
    handler, the guard or the catch-all runs, then the ten third-party
    middleware (the session middleware, passport and connect-flash among
    them) have run in registration order, each on the exchange its
    predecessor handed on with [next()], the global-variables middleware
    has run on the exchange they handed on, and the routing layers are
    walked from the exchange it produced.  Whenever the ten call [next()],
    the request goes that way; in particular when they always do. *)
Theorem session_and_globals_precede_routes (ext : Externals) (x : Exchange) :
  (∀ s, s ∈ routed → s ∈ stages_of (handle ext x) →
     ∃ y, forwarded (setup ext) x = Some y
          ∧ handle ext x
            = (pipeline_prefix
                 ++ stages_of (dispatch ext (routing ext) None (fst (globals y))),
               snd (fst (dispatch ext (routing ext) None (fst (globals y)))),
               snd (dispatch ext (routing ext) None (fst (globals y))))
          ∧ s ∈ stages_of (dispatch ext (routing ext) None (fst (globals y))))
  ∧ (∀ y, forwarded (setup ext) x = Some y →
       handle ext x
       = (pipeline_prefix
            ++ stages_of (dispatch ext (routing ext) None (fst (globals y))),
          snd (fst (dispatch ext (routing ext) None (fst (globals y)))),
          snd (dispatch ext (routing ext) None (fst (globals y)))))
  ∧ (Forall forwards (setup ext) →
       ∃ y, forwarded (setup ext) x = Some y
            ∧ stages_of (handle ext x)
              = pipeline_prefix
                  ++ stages_of (dispatch ext (routing ext) None (fst (globals y)))).
Proof.
  pose proof (handle_setup ext x) as Hsetup.
  split; [ | split ].
  - intros s Hr Hin. destruct (forwarded (setup ext) x) as [y |].
    + exists y. split; [reflexivity |]. split; [exact Hsetup |].
      rewrite Hsetup in Hin. unfold stages_of in Hin at 1. cbn [fst] in Hin.
      apply elem_of_app in Hin as [Hin | Hin]; [ | exact Hin ].
      unfold pipeline_prefix in Hin.
      repeat (apply elem_of_cons in Hin as [-> | Hin]; [ by not_routed Hr | ]).
      by apply elem_of_nil in Hin.
    + exfalso. destruct (Hsetup s Hin) as [Hpre | ->]; [ | by not_routed Hr ].
      cbn [take registration_order] in Hpre.
      repeat (apply elem_of_cons in Hpre as [-> | Hpre]; [ by not_routed Hr | ]).
      by apply elem_of_nil in Hpre.
  - intros y Hy. by rewrite Hy in Hsetup.
  - intros Hf. destruct (forwarded_forwards (setup ext) x Hf) as [y Hy].
    exists y. split; [exact Hy |]. rewrite Hy in Hsetup. by rewrite Hsetup.
Qed.

Lemma session_and_globals_precede_routes_witness :
  (∃ y, forwarded (setup passing) lost_visit = Some y
        ∧ handle passing lost_visit
          = (pipeline_prefix
               ++ stages_of (dispatch passing (routing passing) None (fst (globals y))),
             snd (fst (dispatch passing (routing passing) None (fst (globals y)))),
             snd (dispatch passing (routing passing) None (fst (globals y))))
        ∧ StNotFound ∈ stages_of (dispatch passing (routing passing) None (fst (globals y))))
  ∧ (∃ y, forwarded (setup passing) member_visit = Some y
          ∧ stages_of (handle passing member_visit)
            = pipeline_prefix
                ++ stages_of (dispatch passing (routing passing) None (fst (globals y)))).
Proof.
  split.
  - apply (proj1 (session_and_globals_precede_routes passing lost_visit) StNotFound).
    + unfold routed. repeat constructor.
    + vm_compute. repeat constructor.
  - apply (proj2 (proj2 (session_and_globals_precede_routes passing member_visit))).
    repeat constructor.
Defined.

(** * Further properties *)

(** ** Start-up configuration, continued *)

Lemma or_truthy (a b : Js.value) :
  Js.truthy b = true → Js.truthy (a || b)%js = true.
Proof. intros Hb. unfold Js.or. by destruct (Js.truthy a) eqn:Ha. Qed.

(** X1: whatever the environment holds, the session secret, the listening
    port and the environment tag of the start-up log are truthy values:
    never undefined and never the empty string. *)
Theorem startup_values_never_empty (env : gmap string string) :
  Js.truthy (secret (session_options env)) = true
  ∧ Js.truthy (PORT env) = true
  ∧ Js.truthy (snd (listen env)) = true.
Proof. repeat split; by apply or_truthy. Qed.

(** X2: a variable that is set to a non-empty string is used verbatim (the
    port stays a string, it is not parsed), and a variable that is set to
    the empty string is treated like an unset one. *)
Theorem startup_env_verbatim_or_fallback (env : gmap string string) (s : string) :
  (env !! "SESSION_SECRET" = Some s →
     secret (session_options env)
     = if decide (s = "") then Js.str "your_fallback_session_secret" else Js.str s)
  ∧ (env !! "PORT" = Some s →
       PORT env = if decide (s = "") then Js.number 3000 else Js.str s)
  ∧ (env !! "NODE_ENV" = Some s →
       snd (listen env) = if decide (s = "") then Js.str "development" else Js.str s).
Proof.
  assert (Hor : ∀ b, (Js.str s || b)%js = if decide (s = "") then b else Js.str s).
  { intros b. unfold Js.or. simpl. case_decide as Hs.
    - by rewrite Hs.
    - apply String.eqb_neq in Hs. by rewrite Hs. }
  repeat split; intros Hset.
  - simpl. unfold process_env. rewrite Hset. apply Hor.
  - unfold PORT, process_env. rewrite Hset. apply Hor.
  - simpl. unfold process_env. rewrite Hset. apply Hor.
Qed.

Lemma startup_env_verbatim_or_fallback_witness :
  secret (session_options production_env) = Js.str "your_fallback_session_secret"
  ∧ PORT production_env = Js.str "8080"
  ∧ snd (listen production_env) = Js.str "production".
Proof.
  split; [ | split ].
  - apply (proj1 (startup_env_verbatim_or_fallback production_env "")). reflexivity.
  - apply (proj1 (proj2 (startup_env_verbatim_or_fallback production_env "8080"))).
    reflexivity.
  - apply (proj2 (proj2 (startup_env_verbatim_or_fallback production_env "production"))).
    reflexivity.
Defined.

(** X3: the session cookie is marked secure exactly when NODE_ENV is the
    string "production"; the cookie's lifetime in milliseconds is the
    store's time-to-live in seconds, one day. *)
Theorem cookie_secure_iff_production (env : gmap string string) :
  (cookie_secure (session_options env) = true ↔ env !! "NODE_ENV" = Some "production")
  ∧ cookie_maxAge (session_options env) = 1000 * store_ttl (session_options env)
  ∧ store_ttl (session_options env) = 86400.
Proof.
  split; [ | by split ].
  simpl. unfold process_env.
  destruct (env !! "NODE_ENV") as [s |]; simpl.
  - rewrite String.eqb_eq. split; congruence.
  - split; discriminate.
Qed.

Lemma cookie_secure_iff_production_witness :
  cookie_secure (session_options production_env) = true
  ∧ cookie_secure (session_options bare_env) ≠ true.
Proof.
  split.
  - apply (proj2 (proj1 (cookie_secure_iff_production production_env))). reflexivity.
  - intros H.
    apply (proj1 (proj1 (cookie_secure_iff_production bare_env))) in H.
    discriminate H.
Defined.

(** ** The global-variables middleware, continued *)

(** X4: the global-variables middleware writes only its four keys of
    [res.locals] and reads only its three categories off the queue: every
    other local, every other category, the identity, the status, the
    response and the console are as before, and it always calls [next()]. *)
Theorem globals_frame (x : Exchange) :
  snd (globals x) = Next
  ∧ (∀ k, k ∉ guaranteed_keys → locals (fst (globals x)) !! k = locals x !! k)
  ∧ (∀ type, type ∉ ["success_msg"; "error_msg"; "error"] →
       queued type (fst (globals x)) = queued type x)
  ∧ user (fst (globals x)) = user x
  ∧ statusCode (fst (globals x)) = statusCode x
  ∧ sent (fst (globals x)) = sent x
  ∧ console (fst (globals x)) = console x.
Proof.
  split; [reflexivity |]. split; [ | split; [ | by repeat split ] ].
  - intros k Hk. rewrite globals_locals.
    unfold guaranteed_keys in Hk. rewrite !not_elem_of_cons in Hk.
    destruct Hk as (? & ? & ? & ? & _).
    by rewrite !lookup_insert_ne by done.
  - intros type Hk. rewrite globals_queued. by rewrite decide_False.
Qed.

Lemma globals_frame_witness :
  locals (fst (globals busy_visit)) !! "csrfToken" = Some (Js.str "t0k3n")
  ∧ queued "info" (fst (globals busy_visit)) = ["Draft saved"].
Proof.
  split.
  - rewrite (proj1 (proj2 (globals_frame busy_visit)) "csrfToken"); [reflexivity |].
    unfold guaranteed_keys. rewrite !not_elem_of_cons. repeat split; try done.
    apply not_elem_of_nil.
  - rewrite (proj1 (proj2 (proj2 (globals_frame busy_visit))) "info"); [reflexivity |].
    rewrite !not_elem_of_cons. repeat split; try done. apply not_elem_of_nil.
Defined.

(** X5: the guard and the view context agree on who is logged in: the
    guard lets a request through exactly when the global-variables
    middleware exposes a [user] other than [null], and in that case the
    exposed user is [req.user]. *)
Theorem guard_agrees_with_view_user (x : Exchange) :
  (snd (ensureAuthenticated x) = Next
   ↔ locals (fst (globals x)) !! "user" ≠ Some Js.null)
  ∧ (snd (ensureAuthenticated x) = Next →
       locals (fst (globals x)) !! "user" = Some (user x)).
Proof.
  assert (Hu : locals (fst (globals x)) !! "user" = Some (user x || Js.null)%js).
  { rewrite globals_locals. by rewrite !lookup_insert_ne, lookup_insert_eq by done. }
  rewrite Hu. unfold ensureAuthenticated, isAuthenticated, Js.or.
  destruct (Js.truthy (user x)) eqn:Ht; simpl.
  - split; [ | done ]. split; [ | done ].
    intros _ [= Heq]. by rewrite Heq in Ht.
  - split; [ | done ]. split; [ done | ]. intros Hne. by destruct Hne.
Qed.

Lemma guard_agrees_with_view_user_witness :
  locals (fst (globals member_visit)) !! "user" ≠ Some Js.null
  ∧ locals (fst (globals member_visit)) !! "user" = Some (user member_visit).
Proof.
  split.
  - apply (proj1 (proj1 (guard_agrees_with_view_user member_visit))). reflexivity.
  - apply (proj2 (guard_agrees_with_view_user member_visit)). reflexivity.
Defined.

(** ** From one request to the next *)





(** X7: the dashboard view is rendered only for a present identity.
    Whenever the dashboard route, entered before anything was sent, ends
    with a rendered view, the guard had let the request through, the view
    is dashboard, its [user] is [req.user] (the handler's option wins over
    [res.locals.user]), its title is fixed, the three notification lists of
    [res.locals] are passed on, and session, status and console are
    untouched. *)
Theorem dashboard_rendered_only_for_identity
    (engine : string -> gmap string Js.value -> Rendering)
    (x x' : Exchange) (tr : list Stage) (o : Outcome)
    (view : string) (context : gmap string Js.value) :
  sent x = None →
  run_handlers (dashboard_route engine) x = (tr, x', o) →
  sent x' = Some (Rendered view context) →
  isAuthenticated x = true
  ∧ tr = [StEnsureAuthenticated; StDashboard] ∧ o = Done
  ∧ view = "dashboard"
  ∧ context !! "user" = Some (user x)
  ∧ context !! "title" = Some (Js.str "Dashboard")
  ∧ context !! "success_msg" = locals x !! "success_msg"
  ∧ context !! "error_msg" = locals x !! "error_msg"
  ∧ context !! "error" = locals x !! "error"
  ∧ session_flash x' = session_flash x
  ∧ statusCode x' = statusCode x
  ∧ console x' = console x.
Proof.
  intros Hfresh Hrun Hsent. simpl in Hrun.
  unfold ensureAuthenticated in Hrun.
  destruct (isAuthenticated x) eqn:Hid.
  - unfold dashboard, try_catch, res_render in Hrun.
    destruct (engine "dashboard" (dashboard_options x ∪ locals x)) as [| e | e] eqn:He.
    + simpl in Hrun. injection Hrun as <- <- <-. simpl in Hsent.
      injection Hsent as <- <-.
      repeat split.
      * apply lookup_union_Some_l. unfold dashboard_options.
        by rewrite lookup_insert_ne, lookup_insert_eq by done.
      * apply lookup_union_Some_l. unfold dashboard_options.
        by rewrite lookup_insert_eq.
      * by rewrite lookup_union_r.
      * by rewrite lookup_union_r.
      * by rewrite lookup_union_r.
    + simpl in Hrun. injection Hrun as <- <- <-. congruence.
    + simpl in Hrun. injection Hrun as <- <- <-. discriminate Hsent.
  - simpl in Hrun. injection Hrun as <- <- <-. discriminate Hsent.
Qed.

Lemma dashboard_rendered_only_for_identity_witness :
  isAuthenticated member_visit = true
  ∧ (dashboard_options member_visit ∪ locals member_visit) !! "user"
    = Some (user member_visit).
Proof.
  destruct (dashboard_rendered_only_for_identity quiet_engine member_visit
              (set_sent (Rendered "dashboard"
                           (dashboard_options member_visit ∪ locals member_visit))
                 member_visit)
              [StEnsureAuthenticated; StDashboard] Done "dashboard"
              (dashboard_options member_visit ∪ locals member_visit)
              eq_refl eq_refl eq_refl)
    as (Hid & _ & _ & _ & Huser & _).
  split; [exact Hid | exact Huser].
Defined.



(** ** Rendering failures *)

(** X9: app.js does not recover from a view that cannot be rendered.  The
    home route, the dashboard handler and the catch-all each hand the
    failure that the view system reports on the context it was given to
    Express, with nothing sent, nothing logged and no notice queued (the
    catch-all has set status 404 by then); what [res.render] throws in the
    home route or in the catch-all is handed on in the same way.  In every
    case the home route leaves session, locals, identity and console
    alone. *)
Theorem render_failures_passed_on
    (engine : string -> gmap string Js.value -> Rendering) (x : Exchange) :
  (session_flash (fst (home engine x)) = session_flash x
   ∧ locals (fst (home engine x)) = locals x
   ∧ user (fst (home engine x)) = user x
   ∧ console (fst (home engine x)) = console x)
  ∧ (∀ e, isAuthenticated x = false →
          engine "auth/login" (home_options ∪ locals x) = Failed e
          ∨ engine "auth/login" (home_options ∪ locals x) = Thrown e →
          home engine x = (x, Raise e))
  ∧ (∀ e, engine "dashboard" (dashboard_options x ∪ locals x) = Failed e →
          dashboard engine x = (x, Raise e))
  ∧ (∀ e, engine "error" (notFound_options ∪ locals x) = Failed e
          ∨ engine "error" (notFound_options ∪ locals x) = Thrown e →
          notFound engine x = (set_statusCode 404 x, Raise e)).
Proof.
  split; [ | split; [ | split ] ].
  - unfold home, res_render.
    destruct (isAuthenticated x); [by repeat split |].
    by destruct (engine "auth/login" _).
  - intros e Hid [He | He]; unfold home, res_render; by rewrite Hid, He.
  - intros e He. unfold dashboard, try_catch, res_render. by rewrite He.
  - intros e [He | He]; unfold notFound, res_render; simpl; by rewrite He.
Qed.

Lemma render_failures_passed_on_witness :
  home failing_engine anonymous_home
    = (anonymous_home, Raise (Js.error "Failed to lookup view"))
  ∧ dashboard broken_dashboard_engine member_visit
    = (member_visit, Raise (Js.error "escrows is not defined"))
  ∧ notFound failing_engine lost_visit
    = (set_statusCode 404 lost_visit, Raise (Js.error "Failed to lookup view")).
Proof.
  split; [ | split ].
  - apply (proj1 (proj2 (render_failures_passed_on failing_engine anonymous_home))).
    + reflexivity.
    + left. reflexivity.
  - apply (proj1 (proj2 (proj2 (render_failures_passed_on
                                  broken_dashboard_engine member_visit)))).
    reflexivity.
  - apply (proj2 (proj2 (proj2 (render_failures_passed_on failing_engine lost_visit)))).
    left. reflexivity.
Defined.

(** ** The walk through the stack, continued *)

Section WalkOrder.

Variable ext : Externals.

(** X10: whatever the collaborators do, the layers that run for a request
    run in the order app.js registered them and none runs twice; and if the
    error handler runs, it is the last thing that runs. *)
Theorem stages_in_registration_order (x : Exchange) :
  stages_of (handle ext x) `sublist_of` registration_order
  ∧ NoDup (stages_of (handle ext x))
  ∧ (StErrorHandler ∈ stages_of (handle ext x) →
     last (stages_of (handle ext x)) = Some StErrorHandler).
Proof.
  assert (Hsub : stages_of (handle ext x) `sublist_of` registration_order).
  { apply (dispatch_stages_sublist ext (app ext) None x). }
  split; [exact Hsub |]. split.
  { eapply sublist_NoDup; [apply registration_order_NoDup | exact Hsub]. }
  intros Hin.
  change registration_order
    with (take 19 registration_order ++ [StErrorHandler]) in Hsub.
  apply sublist_app_r in Hsub as (l1 & l2 & Heq & Hl1 & Hl2).
  rewrite Heq in Hin |- *.
  apply sublist_cons_r in Hl2 as [Hnil | (l' & -> & Hnil)];
    apply sublist_nil_r in Hnil as ->.
  - exfalso. rewrite app_nil_r in Hin.
    assert (Hbad : StErrorHandler ∈ take 19 registration_order).
    { eapply elem_of_sublist; [exact Hin | exact Hl1]. }
    revert Hbad. apply (bool_decide_unpack _). by vm_compute.
  - apply last_snoc.
Qed.

(** X11: no request falls off the end of the stack.  Whatever the
    collaborators do, a request is either answered by some layer or the
    error handler runs and the outcome is the error handler's; so when the
    error handler always answers, every request is answered. *)
Theorem request_answered_or_error_handler (x : Exchange) :
  (snd (handle ext x) = Done ∨ StErrorHandler ∈ stages_of (handle ext x))
  ∧ ((∀ e y, snd (errorHandler ext e y) = Done) → snd (handle ext x) = Done).
Proof.
  pose proof (dispatch_answered ext (take 17 (app ext)) StNotFound
                (notFound (view_engine ext)) StErrorHandler (errorHandler ext)
                (notFound_never_next (view_engine ext)) None x) as H.
  change (take 17 (app ext)
            ++ [Use StNotFound (notFound (view_engine ext));
                UseError StErrorHandler (errorHandler ext)])
    with (app ext) in H.
  fold (handle ext x) in H.
  split.
  - destruct H as [Hd | [Hin _]]; [by left | by right].
  - intros Halways. destruct H as [Hd | [_ (e & y & ->)]]; [done | apply Halways].
Qed.

Ltac own_leaf := simpl; apply (bool_decide_unpack _); by vm_compute.

Lemma one_own_route_tail p y :
  one_own_route (stages_of (dispatch ext (drop 15 (app ext)) p y)).
Proof.
  unfold one_own_route, stages_of.
  destruct p as [e |]; simpl.
  { destruct (errorHandler ext e y) as [y' [| | e']]; own_leaf. }
  destruct (route_match ext "GET" "/" y).
  { pose proof (home_never_next (view_engine ext) y) as Hh.
    destruct (home (view_engine ext) y) as [x' [| | e]]; simpl in *.
    - done.
    - own_leaf.
    - destruct (errorHandler ext e x') as [x'' [| | e']]; own_leaf. }
  destruct (route_match ext "GET" "/dashboard" y).
  { pose proof (ensureAuthenticated_never_raises y) as Hg.
    destruct (ensureAuthenticated y) as [x' [| | e]]; simpl in *.
    - pose proof (dashboard_never_next (view_engine ext) x') as Hd.
      destruct (dashboard (view_engine ext) x') as [x'' [| | e]]; simpl in *.
      + done.
      + own_leaf.
      + destruct (errorHandler ext e x'') as [x3 [| | e']]; own_leaf.
    - own_leaf.
    - by destruct (Hg e). }
  pose proof (notFound_never_next (view_engine ext) y) as Hn.
  destruct (notFound (view_engine ext) y) as [x' [| | e]]; simpl in *.
  - done.
  - own_leaf.
  - destruct (errorHandler ext e x') as [x'' [| | e']]; own_leaf.
Qed.

(** X12: of the home route, the guarded dashboard route and the catch-all,
    at most one takes part in any request, whatever the collaborators do:
    the dashboard handler runs only directly after the guard, and the
    catch-all never runs in a request that the home route or the guard has
    seen. *)
Theorem at_most_one_own_route (x : Exchange) :
  one_own_route (stages_of (handle ext x))
  ∧ (StDashboard ∈ stages_of (handle ext x) →
     StEnsureAuthenticated ∈ stages_of (handle ext x))
  ∧ (StNotFound ∈ stages_of (handle ext x) →
     (StHome ∉ stages_of (handle ext x))
     ∧ (StEnsureAuthenticated ∉ stages_of (handle ext x))).
Proof.
  assert (Hone : one_own_route (stages_of (handle ext x))).
  { unfold handle.
    change (app ext) with (take 15 (app ext) ++ drop 15 (app ext)).
    cbn [take app].
    repeat (apply (one_own_route_cons ext);
            [ intros s Hs; cbn [layer_stages] in Hs;
              apply list_elem_of_singleton in Hs as ->;
              apply (bool_decide_unpack _); by vm_compute | ]).
    apply one_own_route_tail. }
  split; [exact Hone |].
  unfold one_own_route in Hone.
  assert (Hmem : ∀ s, s ∈ own_routes →
            (s ∈ stages_of (handle ext x)
             ↔ s ∈ filter (λ s, s ∈ own_routes) (stages_of (handle ext x)))).
  { intros s Hs. rewrite list_elem_of_filter. tauto. }
  rewrite !Hmem by (apply (bool_decide_unpack _); by vm_compute).
  rewrite !elem_of_cons in Hone.
  destruct Hone as [-> | [-> | [-> | [-> | [-> | Hnil]]]]];
    [ | | | | | by apply elem_of_nil in Hnil ];
    apply (bool_decide_unpack _); by vm_compute.
Qed.

End WalkOrder.

Lemma stages_in_registration_order_witness :
  last (stages_of (handle rejecting_body lost_visit)) = Some StErrorHandler.
Proof.
  apply (proj2 (proj2 (stages_in_registration_order rejecting_body lost_visit))).
  vm_compute. repeat constructor.
Defined.

Lemma request_answered_or_error_handler_witness :
  snd (handle rejecting_body lost_visit) = Done.
Proof.
  apply (proj2 (request_answered_or_error_handler rejecting_body lost_visit)).
  intros e y. reflexivity.
Defined.

Lemma at_most_one_own_route_witness :
  StEnsureAuthenticated ∈ stages_of (handle passing member_visit)
  ∧ (StHome ∉ stages_of (handle passing lost_visit))
  ∧ (StEnsureAuthenticated ∉ stages_of (handle passing lost_visit)).
Proof.
  split.
  - apply (proj1 (proj2 (at_most_one_own_route passing member_visit))).
    vm_compute. repeat constructor.
  - apply (proj2 (proj2 (at_most_one_own_route passing lost_visit))).
    vm_compute. repeat constructor.
Defined.
